(** * Adafruit_VEML6070: a shallow embedding of the UV sensor driver

    The driver of [src/Adafruit_VEML6070.cpp] is a C++ class template over a
    two-wire transport type.  It owns one cached command byte and talks to
    the device through the transport and through the free-standing [delay].

    The embedding follows the code:
    - the transport template parameter is a type class [I2C];
    - the driver methods are written in a small state monad over a
      [machine]: the cached register, the transport object behind the
      [_i2c] pointer, and the log of every transport and timebase call;
    - integers are [Z] with the wrap-around of [uint8_t] and [uint16_t]
      written out, bit-fields are masks and shifts. *)

From Stdlib Require Import ZArith List Bool Lia.
Import ListNotations.

Local Open Scope Z_scope.

(** ** Fixed-width integers *)

Definition to_uint8 (z : Z) : Z := z mod 2 ^ 8.
Definition to_uint16 (z : Z) : Z := z mod 2 ^ 16.

(** Conversion of an integer to C++ [bool]: any non-zero value is [true]. *)
Definition to_bool (z : Z) : bool := negb (z =? 0).

(** ** The header: addresses and register layout *)

(** Modelled from the spec: the header Adafruit_VEML6070.h is not part of the
    sources, so the three address macros are taken from the bus address
    table. *)
Definition VEML6070_ADDR_ARA : Z := 0x0C.
Definition VEML6070_ADDR_H : Z := 0x39.
Definition VEML6070_ADDR_L : Z := 0x38.

(** A bit-field of [width] bits starting at bit [pos] of a register. *)
Record bitfield := mkField { pos : Z; width : Z }.

Definition bf_mask (f : bitfield) : Z := Z.shiftl (Z.ones (width f)) (pos f).

(** Reading a bit-field: shift down and mask. *)
Definition bf_get (f : bitfield) (reg : Z) : Z :=
  Z.land (Z.shiftr reg (pos f)) (Z.ones (width f)).

(** Assigning to a bit-field: the value is truncated to the width of the
    field, the other bits of the register are kept. *)
Definition bf_set (f : bitfield) (reg v : Z) : Z :=
  Z.lor (Z.land reg (Z.lnot (bf_mask f)))
        (Z.shiftl (Z.land v (Z.ones (width f))) (pos f)).

(** Modelled from the spec: the [commandRegister] union of the missing header,
    after the command register table: SD is bit 0, bit 1 is reserved, IT is
    bits 2-3, ACK_THD is bit 4 and ACK is bit 5. *)
Definition SD : bitfield := mkField 0 1.
Definition IT : bitfield := mkField 2 2.
Definition ACK_THD : bitfield := mkField 4 1.
Definition ACK : bitfield := mkField 5 1.

(** ** The transport *)

(** The capability set the template parameter has to offer.  Each operation
    takes the transport object and returns it updated, with the value the
    C++ method returns where it has one. *)
Class I2C (T : Type) := {
  i2c_begin : T -> T;
  i2c_beginTransmission : Z -> T -> T;
  i2c_write : Z -> T -> Z * T;
  i2c_endTransmission : T -> Z * T;
  i2c_requestFrom : Z -> Z -> T -> Z * T;
  i2c_read : T -> Z * T
}.

(** Every call that leaves the driver, with its arguments and, for the two
    calls whose result the driver looks at, the value returned. *)
Inductive event : Type :=
| EBegin
| EBeginTransmission (addr : Z)
| EWrite (b : Z)
| EEndTransmission
| ERequestFrom (addr qty ret : Z)
| ERead (ret : Z)
| EDelay (ms : Z).

(** Bus transactions as seen on the wire. *)
Inductive transaction : Type :=
| TxRead (addr qty : Z)
| TxWrite (addr : Z) (payload : list Z).

(** ** The driver object and its monad *)

Section Driver.

Context {T : Type} `{I2C T}.

Record machine := mkMachine {
  _commandRegister : Z;
  _i2c : T;
  trace : list event
}.

Definition M (A : Type) : Type := machine -> A * machine.

Definition ret {A} (a : A) : M A := fun m => (a, m).

Definition bind {A B} (c : M A) (k : A -> M B) : M B :=
  fun m => let (a, m') := c m in k a m'.

Definition emit (e : event) (m : machine) : machine :=
  mkMachine (_commandRegister m) (_i2c m) (trace m ++ [e]).

Definition with_bus (m : machine) (b : T) : machine :=
  mkMachine (_commandRegister m) b (trace m).

Definition set_reg (r : Z) : M unit :=
  fun m => (tt, mkMachine r (_i2c m) (trace m)).

Definition get_reg : M Z := fun m => (_commandRegister m, m).

(** The transport methods, called through [_i2c] and logged. *)
Definition wire_begin : M unit :=
  fun m => (tt, emit EBegin (with_bus m (i2c_begin (_i2c m)))).

Definition wire_beginTransmission (addr : Z) : M unit :=
  fun m => (tt, emit (EBeginTransmission addr)
                     (with_bus m (i2c_beginTransmission addr (_i2c m)))).

Definition wire_write (b : Z) : M Z :=
  fun m => let (r, t) := i2c_write b (_i2c m) in
           (r, emit (EWrite b) (with_bus m t)).

Definition wire_endTransmission : M Z :=
  fun m => let (r, t) := i2c_endTransmission (_i2c m) in
           (r, emit EEndTransmission (with_bus m t)).

Definition wire_requestFrom (addr qty : Z) : M Z :=
  fun m => let (r, t) := i2c_requestFrom addr qty (_i2c m) in
           (r, emit (ERequestFrom addr qty r) (with_bus m t)).

Definition wire_read : M Z :=
  fun m => let (r, t) := i2c_read (_i2c m) in
           (r, emit (ERead r) (with_bus m t)).

(** The timebase: [delay(ms)] blocks and touches nothing else. *)
Definition delay (ms : Z) : M unit := fun m => (tt, emit (EDelay ms) m).

End Driver.

Arguments machine T : clear implicits.
Arguments M T A : clear implicits.

Declare Scope drv_scope.
Delimit Scope drv_scope with drv.
Notation "x <- c ;; k" := (bind c (fun x => k))
  (at level 61, c at next level, right associativity) : drv_scope.
Notation "c ;;; k" := (bind c (fun _ => k))
  (at level 61, right associativity) : drv_scope.

Section Methods.

Context {T : Type} `{I2C T}.

Local Open Scope drv_scope.

(** The constructor: default setting, no bus traffic. *)
Definition Adafruit_VEML6070 (i2c : T) : machine T :=
  mkMachine 0x02 i2c [].

(** [writeCommand]: one write transaction carrying the cached register. *)
Definition writeCommand : M T unit :=
  wire_begin ;;;
  wire_beginTransmission VEML6070_ADDR_L ;;;
  reg <- get_reg ;;
  _ <- wire_write reg ;;
  _ <- wire_endTransmission ;;
  ret tt.

(** [clearAck]: a one-byte request to the alert response address; the count
    returned by the transport is converted to [bool]. *)
Definition clearAck : M T bool :=
  wire_begin ;;;
  n <- wire_requestFrom VEML6070_ADDR_ARA 1 ;;
  ret (to_bool n).

Definition begin (itime : Z) : M T unit :=
  reg <- get_reg ;;
  set_reg (bf_set IT reg itime) ;;;
  _ <- clearAck ;;
  writeCommand.

Definition setInterrupt (state level : bool) : M T unit :=
  reg <- get_reg ;;
  set_reg (bf_set ACK reg (Z.b2z state)) ;;;
  reg <- get_reg ;;
  set_reg (bf_set ACK_THD reg (Z.b2z level)) ;;;
  _ <- clearAck ;;
  writeCommand.

Definition sleep (state : bool) : M T unit :=
  reg <- get_reg ;;
  set_reg (bf_set SD reg (Z.b2z state)) ;;;
  writeCommand.

(** First loop of [waitForNext]: [i] counts down to zero, [itCount] is a
    [uint8_t] doubled at each turn. *)
Fixpoint double_loop (i : nat) (itCount : Z) : Z :=
  match i with
  | O => itCount
  | S i' => double_loop i' (to_uint8 (itCount * 2))
  end.

(** Second loop of [waitForNext]: [n] turns of [delay(63)]. *)
Fixpoint delay_loop (n : nat) : M T unit :=
  match n with
  | O => ret tt
  | S n' => delay 63 ;;; delay_loop n'
  end.

Definition waitForNext : M T unit :=
  reg <- get_reg ;;
  let itCount := double_loop (Z.to_nat (bf_get IT reg)) 1 in
  delay_loop (Z.to_nat itCount).

(** [readUV]: [-1] converted to [uint16_t] is the value returned when a
    request does not deliver exactly one byte. *)
Definition readUV : M T Z :=
  waitForNext ;;;
  n <- wire_requestFrom VEML6070_ADDR_H 1 ;;
  if negb (n =? 1) then ret (to_uint16 (-1)) else
  b <- wire_read ;;
  let uvi := to_uint16 b in
  let uvi := to_uint16 (Z.shiftl uvi 8) in
  n <- wire_requestFrom VEML6070_ADDR_L 1 ;;
  if negb (n =? 1) then ret (to_uint16 (-1)) else
  b <- wire_read ;;
  let uvi := to_uint16 (Z.lor uvi b) in
  ret uvi.

(** ** Sequences of public calls *)

Inductive api_call : Type :=
| CallBegin (itime : Z)
| CallSetInterrupt (state level : bool)
| CallSleep (state : bool)
| CallReadUV
| CallClearAck.

Definition exec (c : api_call) (m : machine T) : machine T :=
  match c with
  | CallBegin itime => snd (begin itime m)
  | CallSetInterrupt state level => snd (setInterrupt state level m)
  | CallSleep state => snd (sleep state m)
  | CallReadUV => snd (readUV m)
  | CallClearAck => snd (clearAck m)
  end.

Definition exec_all (cs : list api_call) (m : machine T) : machine T :=
  fold_left (fun m c => exec c m) cs m.

End Methods.

(** ** Reading a log *)

(** The command bytes handed to the transport, oldest first. *)
Fixpoint written_bytes (t : list event) : list Z :=
  match t with
  | [] => []
  | EWrite b :: t' => b :: written_bytes t'
  | _ :: t' => written_bytes t'
  end.

(** Total time spent in [delay], in milliseconds. *)
Fixpoint delay_total (t : list event) : Z :=
  match t with
  | [] => 0
  | EDelay ms :: t' => ms + delay_total t'
  | _ :: t' => delay_total t'
  end.

(** The bus transactions of a log.  A request is a read transaction; a write
    transaction runs from [beginTransmission] to [endTransmission] and
    carries the bytes written in between.  [cur] is the write transaction
    under construction, if any. *)
Fixpoint transactions_from (cur : option (Z * list Z)) (t : list event)
  : list transaction :=
  match t with
  | [] => []
  | ERequestFrom addr qty _ :: t' => TxRead addr qty :: transactions_from cur t'
  | EBeginTransmission addr :: t' => transactions_from (Some (addr, [])) t'
  | EWrite b :: t' =>
      match cur with
      | Some (addr, bs) => transactions_from (Some (addr, bs ++ [b])) t'
      | None => transactions_from None t'
      end
  | EEndTransmission :: t' =>
      match cur with
      | Some (addr, bs) => TxWrite addr bs :: transactions_from None t'
      | None => transactions_from None t'
      end
  | _ :: t' => transactions_from cur t'
  end.

Definition transactions (t : list event) : list transaction :=
  transactions_from None t.

Definition is_begin (e : event) : bool :=
  match e with EBegin => true | _ => false end.

Definition is_read (e : event) : bool :=
  match e with ERead _ => true | _ => false end.

Definition is_request_to (a : Z) (e : event) : bool :=
  match e with ERequestFrom addr _ _ => addr =? a | _ => false end.

(** ** A scripted transport *)

(** A test double with the buffering of the Arduino transports: a request
    replaces the receive buffer by the bytes the device delivers (at most the
    quantity asked for) and returns their number; [read] takes the next
    buffered byte, or returns [-1] when the buffer is empty.  [replies] holds
    what the device will deliver to the coming requests. *)
Record MockBus := mkMock { rx : list Z; replies : list (list Z) }.

Definition mock_requestFrom (addr qty : Z) (b : MockBus) : Z * MockBus :=
  match replies b with
  | [] => (0, mkMock [] [])
  | r :: rs =>
      let got := firstn (Z.to_nat qty) r in
      (Z.of_nat (length got), mkMock got rs)
  end.

Definition mock_read (b : MockBus) : Z * MockBus :=
  match rx b with
  | [] => (-1, b)
  | x :: xs => (x, mkMock xs (replies b))
  end.

#[export] Instance MockBus_I2C : I2C MockBus := {
  i2c_begin := fun b => b;
  i2c_beginTransmission := fun _ b => b;
  i2c_write := fun _ b => (1, b);
  i2c_endTransmission := fun b => (0, b);
  i2c_requestFrom := mock_requestFrom;
  i2c_read := mock_read
}.

Definition mock (rs : list (list Z)) : MockBus := mkMock [] rs.

(** A freshly constructed driver on a scripted transport. *)
Definition fresh (rs : list (list Z)) : machine MockBus :=
  Adafruit_VEML6070 (mock rs).

(** ** Vocabulary of the statements *)

(** Whether bit [i] of a register belongs to the field [f]. *)
Definition in_field (f : bitfield) (i : Z) : bool :=
  (pos f <=? i) && (i <? pos f + width f).

Definition well_formed (f : bitfield) : Prop := 0 <= pos f /\ 0 <= width f.

Section BusAfter.

Context {T : Type} `{I2C T}.

(** The transport object once [writeCommand] has sent [reg]. *)
Definition bus_after_write (reg : Z) (b : T) : T :=
  snd (i2c_endTransmission
         (snd (i2c_write reg
                 (i2c_beginTransmission VEML6070_ADDR_L (i2c_begin b))))).

(** The reply of the transport to the request of [clearAck]: the count and
    the transport object. *)
Definition ara_reply (b : T) : Z * T :=
  i2c_requestFrom VEML6070_ADDR_ARA 1 (i2c_begin b).

(** The replies of the transport to the four calls of [readUV]. *)
Definition high_request (b : T) : Z * T := i2c_requestFrom VEML6070_ADDR_H 1 b.
Definition high_read (b : T) : Z * T := i2c_read (snd (high_request b)).
Definition low_request (b : T) : Z * T :=
  i2c_requestFrom VEML6070_ADDR_L 1 (snd (high_read b)).
Definition low_read (b : T) : Z * T := i2c_read (snd (low_request b)).

End BusAfter.

(** The log of the integration-period wait for a cached register. *)
Definition wait_events (reg : Z) : list event :=
  repeat (EDelay 63) (Z.to_nat (2 ^ bf_get IT reg)).

(** The events of one command write. *)
Definition write_events (reg : Z) : list event :=
  [EBegin; EBeginTransmission 0x38; EWrite reg; EEndTransmission].

(** The bits of the cached register a public call assigns to. *)
Definition touches (c : api_call) (i : Z) : bool :=
  match c with
  | CallBegin _ => in_field IT i
  | CallSetInterrupt _ _ => in_field ACK i || in_field ACK_THD i
  | CallSleep _ => in_field SD i
  | CallReadUV => false
  | CallClearAck => false
  end.

Definition is_begin_call (c : api_call) : bool :=
  match c with CallBegin _ => true | _ => false end.

(** The time a public call spends in [delay], for the register it finds. *)
Definition wait_of (c : api_call) (reg : Z) : Z :=
  match c with
  | CallReadUV => 63 * 2 ^ bf_get IT reg
  | _ => 0
  end.

(** A scan of a log for reads out of place: [ok] tells whether the event
    just before was a request that returned exactly one byte, the only place
    where a [read] is in order. *)
Fixpoint reads_guarded (ok : bool) (t : list event) : bool :=
  match t with
  | [] => true
  | ERequestFrom _ _ r :: t' => reads_guarded (r =? 1) t'
  | ERead _ :: t' => ok && reads_guarded false t'
  | _ :: t' => reads_guarded false t'
  end.

(** The flag of [reads_guarded] once the log [t] has gone by. *)
Fixpoint guard_after (ok : bool) (t : list event) : bool :=
  match t with
  | [] => ok
  | ERequestFrom _ _ r :: t' => guard_after (r =? 1) t'
  | _ :: t' => guard_after false t'
  end.

(** The write transaction left open by the log [t], if any: the state of
    [transactions_from] once [t] has gone by. *)
Fixpoint open_after (cur : option (Z * list Z)) (t : list event)
  : option (Z * list Z) :=
  match t with
  | [] => cur
  | EBeginTransmission addr :: t' => open_after (Some (addr, [])) t'
  | EWrite b :: t' =>
      match cur with
      | Some (addr, bs) => open_after (Some (addr, bs ++ [b])) t'
      | None => open_after None t'
      end
  | EEndTransmission :: t' => open_after None t'
  | _ :: t' => open_after cur t'
  end.

(** The transactions of this device: a one-byte read from one of its three
    read addresses, or a one-byte write to the command address. *)
Definition veml_transaction (x : transaction) : bool :=
  match x with
  | TxRead addr qty =>
      (qty =? 1) && ((addr =? 0x0C) || (addr =? 0x39) || (addr =? 0x38))
  | TxWrite addr payload => (addr =? 0x38) && Nat.eqb (length payload) 1
  end.

(** The shapes of what one public call appends to the log. *)
Inductive call_log : list event -> Prop :=
| log_clear_write (n reg : Z) :
    call_log ([EBegin; ERequestFrom 0x0C 1 n] ++ write_events reg)
| log_write (reg : Z) :
    call_log (write_events reg)
| log_clear (n : Z) :
    call_log [EBegin; ERequestFrom 0x0C 1 n]
| log_read_high_short (reg n : Z) :
    n <> 1 ->
    call_log (wait_events reg ++ [ERequestFrom 0x39 1 n])
| log_read_low_short (reg x n : Z) :
    n <> 1 ->
    call_log (wait_events reg ++
              [ERequestFrom 0x39 1 1; ERead x; ERequestFrom 0x38 1 n])
| log_read (reg x y : Z) :
    call_log (wait_events reg ++
              [ERequestFrom 0x39 1 1; ERead x; ERequestFrom 0x38 1 1; ERead y]).

(** * Properties *)

(** ** Bit-fields *)

Lemma SD_wf : well_formed SD.
Proof. unfold well_formed; simpl; lia. Qed.

Lemma IT_wf : well_formed IT.
Proof. unfold well_formed; simpl; lia. Qed.

Lemma ACK_THD_wf : well_formed ACK_THD.
Proof. unfold well_formed; simpl; lia. Qed.

Lemma ACK_wf : well_formed ACK.
Proof. unfold well_formed; simpl; lia. Qed.

Create HintDb fields.

#[local] Hint Resolve SD_wf IT_wf ACK_THD_wf ACK_wf : fields.

(** A bit of a register after an assignment to one of its fields. *)
Lemma bf_set_testbit (f : bitfield) (reg v i : Z) :
  well_formed f -> 0 <= i ->
  Z.testbit (bf_set f reg v) i =
  if in_field f i then Z.testbit v (i - pos f) else Z.testbit reg i.
Proof.
  intros [Hp Hw] Hi. unfold bf_set, bf_mask, in_field.
  rewrite Z.lor_spec, Z.land_spec, Z.lnot_spec by assumption.
  rewrite !Z.shiftl_spec by assumption.
  rewrite Z.land_spec, !Z.testbit_ones by assumption.
  destruct (Z.leb_spec (pos f) i) as [Hle | Hlt].
  - replace (0 <=? i - pos f) with true by (symmetry; apply Z.leb_le; lia).
    destruct (Z.ltb_spec i (pos f + width f)) as [Hin | Hout].
    + replace (i - pos f <? width f) with true by (symmetry; apply Z.ltb_lt; lia).
      simpl. rewrite andb_false_r, andb_true_r. reflexivity.
    + replace (i - pos f <? width f) with false by (symmetry; apply Z.ltb_ge; lia).
      simpl. rewrite andb_true_r, andb_false_r, orb_false_r. reflexivity.
  - replace (0 <=? i - pos f) with false by (symmetry; apply Z.leb_gt; lia).
    simpl. rewrite andb_true_r, andb_false_r, orb_false_r. reflexivity.
Qed.

(** Bits outside the field are kept, also at negative positions, where every
    bit reads as [false]. *)
Lemma bf_set_frame (f : bitfield) (reg v i : Z) :
  well_formed f -> in_field f i = false ->
  Z.testbit (bf_set f reg v) i = Z.testbit reg i.
Proof.
  intros Hf Hout. destruct (Z.lt_ge_cases i 0) as [Hneg | Hnn].
  - rewrite !Z.testbit_neg_r by assumption. reflexivity.
  - rewrite bf_set_testbit, Hout by assumption. reflexivity.
Qed.

Lemma bf_get_testbit (f : bitfield) (reg i : Z) :
  well_formed f -> 0 <= i ->
  Z.testbit (bf_get f reg) i = Z.testbit reg (i + pos f) && (i <? width f).
Proof.
  intros [Hp Hw] Hi. unfold bf_get.
  rewrite Z.land_spec, Z.shiftr_spec, Z.testbit_ones_nonneg by assumption.
  reflexivity.
Qed.

Lemma bf_get_range (f : bitfield) (reg : Z) :
  well_formed f -> 0 <= bf_get f reg < 2 ^ width f.
Proof.
  intros [Hp Hw]. unfold bf_get. rewrite Z.land_ones by assumption.
  apply Z.mod_pos_bound. apply Z.pow_pos_nonneg; lia.
Qed.

(** Reading a field back gives the value assigned, truncated to the width. *)
Lemma bf_get_set (f : bitfield) (reg v : Z) :
  well_formed f -> bf_get f (bf_set f reg v) = v mod 2 ^ width f.
Proof.
  intros Hf. pose proof Hf as [Hp Hw].
  rewrite <- Z.land_ones by assumption.
  apply Z.bits_inj'. intros i Hi.
  rewrite bf_get_testbit, bf_set_testbit by (assumption || lia).
  rewrite Z.land_spec, Z.testbit_ones_nonneg by assumption.
  unfold in_field.
  replace (i + pos f - pos f) with i by lia.
  destruct (Z.ltb_spec i (width f)) as [Hin | Hout].
  - replace (pos f <=? i + pos f) with true by (symmetry; apply Z.leb_le; lia).
    replace (i + pos f <? pos f + width f) with true
      by (symmetry; apply Z.ltb_lt; lia).
    reflexivity.
  - rewrite !andb_false_r. reflexivity.
Qed.

(** A register that fits a byte still does after a field assignment. *)
Lemma bf_set_byte (f : bitfield) (reg v : Z) :
  well_formed f -> pos f + width f <= 8 -> 0 <= reg < 2 ^ 8 ->
  0 <= bf_set f reg v < 2 ^ 8.
Proof.
  intros Hf Hfit Hreg. pose proof Hf as [Hp Hw].
  assert (Hhigh : forall i, 8 <= i -> Z.testbit (bf_set f reg v) i = false).
  { intros i Hi. rewrite bf_set_testbit by (assumption || lia).
    unfold in_field.
    replace (i <? pos f + width f) with false by (symmetry; apply Z.ltb_ge; lia).
    rewrite andb_false_r.
    rewrite <- (Z.mod_small reg (2 ^ 8)) by assumption.
    apply Z.mod_pow2_bits_high. lia. }
  assert (Hnn : 0 <= bf_set f reg v).
  { unfold bf_set. apply Z.lor_nonneg. split.
    - apply Z.land_nonneg. left. lia.
    - apply Z.shiftl_nonneg. apply Z.land_nonneg. right.
      rewrite Z.ones_equiv. pose proof (Z.pow_pos_nonneg 2 (width f)). lia. }
  split; [assumption |].
  destruct (Z.eq_dec (bf_set f reg v) 0) as [-> | Hnz]; [reflexivity |].
  apply Z.log2_lt_pow2; [lia |].
  destruct (Z.lt_ge_cases (Z.log2 (bf_set f reg v)) 8) as [Hlt | Hge];
    [assumption |].
  pose proof (Z.bit_log2 (bf_set f reg v)) as Hbit.
  rewrite (Hhigh _ Hge) in Hbit. discriminate Hbit. lia.
Qed.

(** ** The methods, one equation each *)

Section MethodEquations.

Context {T : Type} `{I2C T}.

Ltac run_method :=
  unfold bind, wire_begin, wire_beginTransmission, wire_write,
    wire_endTransmission, wire_requestFrom, wire_read, delay, get_reg,
    set_reg, ret, emit, with_bus; simpl.

Lemma writeCommand_eq (m : machine T) :
  writeCommand m =
  (tt, mkMachine (_commandRegister m)
                 (bus_after_write (_commandRegister m) (_i2c m))
                 (trace m ++ write_events (_commandRegister m))).
Proof.
  unfold writeCommand, bus_after_write, write_events. run_method.
  destruct (i2c_write _ _) as [w b1]; simpl.
  destruct (i2c_endTransmission _) as [e b2]; simpl.
  rewrite <- !app_assoc. reflexivity.
Qed.

Lemma clearAck_eq (m : machine T) :
  clearAck m =
  (to_bool (fst (ara_reply (_i2c m))),
   mkMachine (_commandRegister m) (snd (ara_reply (_i2c m)))
             (trace m ++ [EBegin; ERequestFrom 0x0C 1 (fst (ara_reply (_i2c m)))])).
Proof.
  unfold clearAck, ara_reply. run_method.
  destruct (i2c_requestFrom _ _ _) as [n b1]; simpl.
  rewrite <- !app_assoc. reflexivity.
Qed.

(** A command write after the alert clear, for the register [reg] the
    caller has just stored. *)
Lemma clear_then_write_eq (m : machine T) :
  bind clearAck (fun _ => writeCommand) m =
  (tt, mkMachine (_commandRegister m)
                 (bus_after_write (_commandRegister m) (snd (ara_reply (_i2c m))))
                 (trace m ++ [EBegin; ERequestFrom 0x0C 1 (fst (ara_reply (_i2c m)))]
                          ++ write_events (_commandRegister m))).
Proof.
  unfold bind at 1. rewrite clearAck_eq, writeCommand_eq. simpl.
  rewrite <- app_assoc. reflexivity.
Qed.

Lemma begin_eq (itime : Z) (m : machine T) :
  let reg := bf_set IT (_commandRegister m) itime in
  begin itime m =
  (tt, mkMachine reg (bus_after_write reg (snd (ara_reply (_i2c m))))
                 (trace m ++ [EBegin; ERequestFrom 0x0C 1 (fst (ara_reply (_i2c m)))]
                          ++ write_events reg)).
Proof.
  intros reg. unfold begin. unfold bind at 1 2, get_reg, set_reg.
  rewrite clear_then_write_eq. reflexivity.
Qed.

Lemma setInterrupt_eq (state level : bool) (m : machine T) :
  let reg := bf_set ACK_THD (bf_set ACK (_commandRegister m) (Z.b2z state))
                    (Z.b2z level) in
  setInterrupt state level m =
  (tt, mkMachine reg (bus_after_write reg (snd (ara_reply (_i2c m))))
                 (trace m ++ [EBegin; ERequestFrom 0x0C 1 (fst (ara_reply (_i2c m)))]
                          ++ write_events reg)).
Proof.
  intros reg. unfold setInterrupt. unfold bind at 1 2 3 4, get_reg, set_reg.
  rewrite clear_then_write_eq. reflexivity.
Qed.

Lemma sleep_eq (state : bool) (m : machine T) :
  let reg := bf_set SD (_commandRegister m) (Z.b2z state) in
  sleep state m =
  (tt, mkMachine reg (bus_after_write reg (_i2c m))
                 (trace m ++ write_events reg)).
Proof.
  intros reg. unfold sleep. unfold bind at 1 2, get_reg, set_reg.
  rewrite writeCommand_eq. reflexivity.
Qed.

End MethodEquations.

(** ** The integration-period wait and the measurement *)

(** While the counter does not overflow a byte, the first loop computes a
    power of two. *)
Lemma double_loop_pow (i : nat) (itCount : Z) :
  0 <= itCount -> itCount * 2 ^ Z.of_nat i < 2 ^ 8 ->
  double_loop i itCount = itCount * 2 ^ Z.of_nat i.
Proof.
  revert itCount. induction i as [| i IH]; intros itCount Hnn Hfit.
  - simpl. lia.
  - rewrite Nat2Z.inj_succ, Z.pow_succ_r in * by lia.
    pose proof (Z.pow_pos_nonneg 2 (Z.of_nat i)) as Hpow.
    change (double_loop (S i) itCount)
      with (double_loop i (to_uint8 (itCount * 2))).
    unfold to_uint8. rewrite Z.mod_small by nia.
    rewrite IH by nia. ring.
Qed.

Lemma double_loop_IT (reg : Z) :
  double_loop (Z.to_nat (bf_get IT reg)) 1 = 2 ^ bf_get IT reg.
Proof.
  pose proof (bf_get_range IT reg IT_wf) as Hr. simpl in Hr.
  assert (Hcases : bf_get IT reg = 0 \/ bf_get IT reg = 1 \/
                   bf_get IT reg = 2 \/ bf_get IT reg = 3) by lia.
  destruct Hcases as [-> | [-> | [-> | ->]]]; reflexivity.
Qed.

Lemma delay_total_repeat (ms : Z) (n : nat) :
  delay_total (repeat (EDelay ms) n) = ms * Z.of_nat n.
Proof.
  induction n as [| n IH].
  - simpl. lia.
  - rewrite Nat2Z.inj_succ. simpl repeat. simpl delay_total. rewrite IH. lia.
Qed.

Lemma wait_events_total (reg : Z) :
  delay_total (wait_events reg) = 63 * 2 ^ bf_get IT reg.
Proof.
  unfold wait_events. rewrite delay_total_repeat, Z2Nat.id; [reflexivity |].
  apply Z.pow_nonneg. lia.
Qed.

(** Assembling two bytes never leaves sixteen bits. *)
Lemma log2_below (a n : Z) : 0 < n -> 0 <= a < 2 ^ n -> Z.log2 a < n.
Proof.
  intros Hn [Ha Hlt]. destruct (Z.eq_dec a 0) as [-> | Hnz].
  - simpl. assumption.
  - apply Z.log2_lt_pow2; lia.
Qed.

Lemma assemble_uint16 (hi lo : Z) :
  0 <= hi < 256 -> 0 <= lo < 256 ->
  to_uint16 (Z.lor (to_uint16 (Z.shiftl (to_uint16 hi) 8)) lo) =
  Z.lor (Z.shiftl hi 8) lo.
Proof.
  intros Hhi Hlo. unfold to_uint16.
  rewrite (Z.mod_small hi) by lia.
  assert (Hsh : 0 <= Z.shiftl hi 8 < 2 ^ 16).
  { rewrite Z.shiftl_mul_pow2 by lia. lia. }
  rewrite (Z.mod_small (Z.shiftl hi 8)) by assumption.
  apply Z.mod_small.
  assert (Hnn : 0 <= Z.lor (Z.shiftl hi 8) lo) by (apply Z.lor_nonneg; lia).
  split; [assumption |].
  destruct (Z.eq_dec (Z.lor (Z.shiftl hi 8) lo) 0) as [-> | Hnz]; [reflexivity |].
  apply Z.log2_lt_pow2; [lia |].
  rewrite Z.log2_lor by lia.
  pose proof (log2_below (Z.shiftl hi 8) 16 ltac:(lia) Hsh).
  pose proof (log2_below lo 16 ltac:(lia) ltac:(lia)).
  lia.
Qed.

Section Measurement.

Context {T : Type} `{I2C T}.

Lemma bind_run {A B} (c : M T A) (k : A -> M T B) (m : machine T) :
  bind c k m = k (fst (c m)) (snd (c m)).
Proof. unfold bind. destruct (c m); reflexivity. Qed.

Lemma wire_requestFrom_eq (addr qty : Z) (m : machine T) :
  let r := i2c_requestFrom addr qty (_i2c m) in
  wire_requestFrom addr qty m =
  (fst r, mkMachine (_commandRegister m) (snd r)
                    (trace m ++ [ERequestFrom addr qty (fst r)])).
Proof.
  unfold wire_requestFrom, emit, with_bus.
  destruct (i2c_requestFrom addr qty (_i2c m)); reflexivity.
Qed.

Lemma wire_read_eq (m : machine T) :
  let r := i2c_read (_i2c m) in
  wire_read m =
  (fst r, mkMachine (_commandRegister m) (snd r) (trace m ++ [ERead (fst r)])).
Proof.
  unfold wire_read, emit, with_bus. destruct (i2c_read (_i2c m)); reflexivity.
Qed.

Lemma delay_loop_eq (n : nat) (m : machine T) :
  delay_loop n m =
  (tt, mkMachine (_commandRegister m) (_i2c m)
                 (trace m ++ repeat (EDelay 63) n)).
Proof.
  revert m. induction n as [| n IH]; intros m.
  - simpl. unfold ret. rewrite app_nil_r. destruct m; reflexivity.
  - simpl delay_loop. unfold bind, delay. rewrite IH. simpl.
    rewrite <- app_assoc. reflexivity.
Qed.

Lemma waitForNext_eq (m : machine T) :
  waitForNext m =
  (tt, mkMachine (_commandRegister m) (_i2c m)
                 (trace m ++ wait_events (_commandRegister m))).
Proof.
  unfold waitForNext, bind, get_reg. rewrite delay_loop_eq, double_loop_IT.
  reflexivity.
Qed.

(** The three ways [readUV] can go, by the counts the two requests return. *)
Lemma readUV_eq (m : machine T) :
  let reg := _commandRegister m in
  let hq := high_request (_i2c m) in
  let hr := high_read (_i2c m) in
  let lq := low_request (_i2c m) in
  let lr := low_read (_i2c m) in
  readUV m =
  if negb (fst hq =? 1) then
    (to_uint16 (-1),
     mkMachine reg (snd hq)
       (trace m ++ wait_events reg ++ [ERequestFrom 0x39 1 (fst hq)]))
  else if negb (fst lq =? 1) then
    (to_uint16 (-1),
     mkMachine reg (snd lq)
       (trace m ++ wait_events reg ++
        [ERequestFrom 0x39 1 (fst hq); ERead (fst hr);
         ERequestFrom 0x38 1 (fst lq)]))
  else
    (to_uint16 (Z.lor (to_uint16 (Z.shiftl (to_uint16 (fst hr)) 8)) (fst lr)),
     mkMachine reg (snd lr)
       (trace m ++ wait_events reg ++
        [ERequestFrom 0x39 1 (fst hq); ERead (fst hr);
         ERequestFrom 0x38 1 (fst lq); ERead (fst lr)])).
Proof.
  intros reg hq hr lq lr. subst reg hq hr lq lr.
  unfold readUV, low_read, low_request, high_read, high_request.
  rewrite bind_run, waitForNext_eq. cbn [fst snd].
  rewrite bind_run, wire_requestFrom_eq. cbn [fst snd _i2c _commandRegister trace].
  destruct (i2c_requestFrom VEML6070_ADDR_H 1 (_i2c m)) as [n1 b1].
  cbn [fst snd]. destruct (negb (n1 =? 1)).
  - unfold ret. rewrite <- !app_assoc. reflexivity.
  - rewrite bind_run, wire_read_eq. cbn [fst snd _i2c _commandRegister trace].
    destruct (i2c_read b1) as [x1 b2]. cbn [fst snd].
    rewrite bind_run, wire_requestFrom_eq.
    cbn [fst snd _i2c _commandRegister trace].
    destruct (i2c_requestFrom VEML6070_ADDR_L 1 b2) as [n2 b3].
    cbn [fst snd]. destruct (negb (n2 =? 1)).
    + unfold ret. rewrite <- !app_assoc. reflexivity.
    + rewrite bind_run, wire_read_eq. cbn [fst snd _i2c _commandRegister trace].
      destruct (i2c_read b3) as [x2 b4]. cbn [fst snd].
      unfold ret. rewrite <- !app_assoc. reflexivity.
Qed.

End Measurement.

(** ** Logs *)

Lemma written_bytes_app (t1 t2 : list event) :
  written_bytes (t1 ++ t2) = written_bytes t1 ++ written_bytes t2.
Proof.
  induction t1 as [| e t1 IH]; [reflexivity |].
  destruct e; simpl; rewrite IH; reflexivity.
Qed.

Lemma delay_total_app (t1 t2 : list event) :
  delay_total (t1 ++ t2) = delay_total t1 + delay_total t2.
Proof.
  induction t1 as [| e t1 IH]; [reflexivity |].
  destruct e; simpl; rewrite IH; lia.
Qed.

Lemma written_bytes_wait (reg : Z) : written_bytes (wait_events reg) = [].
Proof.
  unfold wait_events. induction (Z.to_nat (2 ^ bf_get IT reg)); simpl; auto.
Qed.

Lemma transactions_from_wait (cur : option (Z * list Z)) (reg : Z)
      (t : list event) :
  transactions_from cur (wait_events reg ++ t) = transactions_from cur t.
Proof.
  unfold wait_events. induction (Z.to_nat (2 ^ bf_get IT reg)); simpl; auto.
Qed.

Lemma existsb_wait (p : event -> bool) (reg : Z) :
  p (EDelay 63) = false -> existsb p (wait_events reg) = false.
Proof.
  intros Hp. unfold wait_events.
  induction (Z.to_nat (2 ^ bf_get IT reg)) as [| n IH]; simpl; [reflexivity |].
  rewrite Hp, IH. reflexivity.
Qed.

Lemma written_bytes_write (reg : Z) : written_bytes (write_events reg) = [reg].
Proof. reflexivity. Qed.

Section Claims.

Context {T : Type} `{I2C T}.

(** What [readUV] appends to the log never holds a transport [begin] nor a
    write, whichever way the call goes. *)
Lemma readUV_appends (m : machine T) :
  exists evs,
    trace (snd (readUV m)) = trace m ++ evs /\
    existsb is_begin evs = false /\
    written_bytes evs = [] /\
    existsb (is_request_to 0x39) evs = true.
Proof.
  rewrite readUV_eq.
  destruct (negb (fst (high_request (_i2c m)) =? 1));
    [| destruct (negb (fst (low_request (_i2c m)) =? 1))];
    cbn [snd trace]; eexists; (split; [reflexivity |]);
    rewrite existsb_app, written_bytes_app, written_bytes_wait, existsb_app;
    rewrite !existsb_wait by reflexivity; repeat split; reflexivity.
Qed.

Lemma readUV_register (m : machine T) :
  _commandRegister (snd (readUV m)) = _commandRegister m.
Proof.
  rewrite readUV_eq.
  destruct (negb (fst (high_request (_i2c m)) =? 1));
    [| destruct (negb (fst (low_request (_i2c m)) =? 1))]; reflexivity.
Qed.

(** The four other public calls start by a transport [begin]. *)
Lemma other_calls_begin_transport (m : machine T) (itime : Z)
      (state level : bool) :
  (exists evs, trace (snd (begin itime m)) = trace m ++ EBegin :: evs) /\
  (exists evs, trace (snd (setInterrupt state level m)) = trace m ++ EBegin :: evs) /\
  (exists evs, trace (snd (sleep state m)) = trace m ++ EBegin :: evs) /\
  (exists evs, trace (snd (clearAck m)) = trace m ++ EBegin :: evs).
Proof.
  rewrite begin_eq, setInterrupt_eq, sleep_eq, clearAck_eq.
  repeat split; eexists; reflexivity.
Qed.

(** One public call keeps bit 1 of the register, and every byte it writes
    has bit 1 set. *)
Lemma exec_reserved_bit (c : api_call) (m : machine T) :
  Z.testbit (_commandRegister m) 1 = true ->
  Z.testbit (_commandRegister (exec c m)) 1 = true /\
  exists ws, written_bytes (trace (exec c m)) = written_bytes (trace m) ++ ws /\
             Forall (fun b => Z.testbit b 1 = true) ws.
Proof.
  intros Hbit.
  assert (Hwr : forall reg bs evs,
             written_bytes (bs ++ evs ++ write_events reg) =
             written_bytes bs ++ written_bytes evs ++ [reg]).
  { intros. rewrite !written_bytes_app. reflexivity. }
  destruct c as [itime | state level | state | |]; unfold exec.
  - rewrite begin_eq. cbn [snd _commandRegister trace].
    assert (Hb : Z.testbit (bf_set IT (_commandRegister m) itime) 1 = true)
      by (rewrite bf_set_frame by auto with fields; assumption).
    split; [assumption |]. eexists. split; [apply Hwr |].
    simpl. constructor; [assumption | constructor].
  - rewrite setInterrupt_eq. cbn [snd _commandRegister trace].
    assert (Hb : Z.testbit
                   (bf_set ACK_THD
                      (bf_set ACK (_commandRegister m) (Z.b2z state))
                      (Z.b2z level)) 1 = true)
      by (rewrite !bf_set_frame by auto with fields; assumption).
    split; [assumption |]. eexists. split; [apply Hwr |].
    simpl. constructor; [assumption | constructor].
  - rewrite sleep_eq. cbn [snd _commandRegister trace].
    assert (Hb : Z.testbit (bf_set SD (_commandRegister m) (Z.b2z state)) 1
                 = true)
      by (rewrite bf_set_frame by auto with fields; assumption).
    split; [assumption |]. exists [bf_set SD (_commandRegister m) (Z.b2z state)].
    split; [rewrite written_bytes_app; reflexivity |].
    constructor; [assumption | constructor].
  - rewrite readUV_register. split; [assumption |].
    destruct (readUV_appends m) as (evs & -> & _ & Hw & _).
    exists []. rewrite written_bytes_app, Hw. split; [reflexivity | constructor].
  - rewrite clearAck_eq. cbn [snd _commandRegister trace].
    split; [assumption |]. exists [].
    rewrite written_bytes_app. split; [reflexivity | constructor].
Qed.

Lemma exec_all_reserved_bit (calls : list api_call) (m : machine T) :
  Z.testbit (_commandRegister m) 1 = true ->
  Forall (fun b => Z.testbit b 1 = true) (written_bytes (trace m)) ->
  Z.testbit (_commandRegister (exec_all calls m)) 1 = true /\
  Forall (fun b => Z.testbit b 1 = true)
         (written_bytes (trace (exec_all calls m))).
Proof.
  revert m. induction calls as [| c calls IH]; intros m Hbit Hlog.
  - split; assumption.
  - destruct (exec_reserved_bit c m Hbit) as (Hbit' & ws & Hws & Hall).
    apply IH; [assumption |]. rewrite Hws. apply Forall_app. split; assumption.
Qed.

End Claims.

(** * The claims *)

Section Specification.

Context {T : Type} `{I2C T}.

(** C1. When both one-byte requests of [readUV] deliver one byte, the call
    first waits [2 ^ IT] times 63 ms, that is [63 * 2 ^ IT] ms, where IT is
    the integration-time field of the cached register; it then issues one
    one-byte request to 0x39 and one one-byte request to 0x38, in that order
    and nothing else on the bus; and it returns [(hi << 8) | lo] for the
    bytes [hi] and [lo] read after the first and the second request. *)
Theorem readUV_success (m : machine T) (hi lo : Z)
    (Hhq : fst (high_request (_i2c m)) = 1)
    (Hhr : fst (high_read (_i2c m)) = hi)
    (Hlq : fst (low_request (_i2c m)) = 1)
    (Hlr : fst (low_read (_i2c m)) = lo)
    (Hhi : 0 <= hi < 256) (Hlo : 0 <= lo < 256) :
  let it := bf_get IT (_commandRegister m) in
  let waits := repeat (EDelay 63) (Z.to_nat (2 ^ it)) in
  let reads := [ERequestFrom 0x39 1 1; ERead hi; ERequestFrom 0x38 1 1; ERead lo] in
  fst (readUV m) = Z.lor (Z.shiftl hi 8) lo /\
  trace (snd (readUV m)) = trace m ++ waits ++ reads /\
  delay_total (waits ++ reads) = 63 * 2 ^ it /\
  transactions (waits ++ reads) = [TxRead 0x39 1; TxRead 0x38 1].
Proof.
  intros it waits reads. rewrite readUV_eq, Hhq, Hlq, Hhr, Hlr.
  cbn [negb Z.eqb Pos.eqb fst snd trace].
  change waits with (wait_events (_commandRegister m)). clear waits.
  repeat split.
  - apply assemble_uint16; assumption.
  - rewrite delay_total_app, wait_events_total. fold it. simpl. lia.
  - unfold transactions. rewrite transactions_from_wait. reflexivity.
Qed.

(** C2. If the request to 0x39 delivers fewer than one byte, [readUV]
    returns 0xFFFF and the log of the call ends with that request: no request
    to 0x38 is issued.  If the request to 0x39 delivers one byte and the
    request to 0x38 fewer than one, [readUV] returns 0xFFFF as well. *)
Theorem readUV_short_read (m : machine T) :
  let waits := repeat (EDelay 63) (Z.to_nat (2 ^ bf_get IT (_commandRegister m))) in
  let hq := fst (high_request (_i2c m)) in
  let lq := fst (low_request (_i2c m)) in
  (hq < 1 ->
   fst (readUV m) = 0xFFFF /\
   trace (snd (readUV m)) = trace m ++ waits ++ [ERequestFrom 0x39 1 hq] /\
   existsb (is_request_to 0x38) (waits ++ [ERequestFrom 0x39 1 hq]) = false) /\
  (hq = 1 -> lq < 1 ->
   fst (readUV m) = 0xFFFF /\
   trace (snd (readUV m)) =
   trace m ++ waits ++
   [ERequestFrom 0x39 1 1; ERead (fst (high_read (_i2c m)));
    ERequestFrom 0x38 1 lq]).
Proof.
  intros waits hq lq.
  change waits with (wait_events (_commandRegister m)). clear waits.
  split.
  - intros Hshort. rewrite readUV_eq. fold hq.
    replace (hq =? 1) with false by (symmetry; apply Z.eqb_neq; lia).
    cbn [negb fst snd trace]. repeat split.
    rewrite existsb_app, existsb_wait by reflexivity.
    reflexivity.
  - intros Hone Hshort. rewrite readUV_eq. fold hq lq. rewrite Hone.
    replace (lq =? 1) with false by (symmetry; apply Z.eqb_neq; lia).
    cbn [negb Z.eqb Pos.eqb fst snd trace]. split; reflexivity.
Qed.

(** C3. After any sequence of public calls on a freshly constructed driver,
    bit 1 of the cached command register is set, and every byte the driver
    has written to the transport has bit 1 set. *)
Theorem reserved_bit_preserved (i2c : T) (calls : list api_call) :
  let m := exec_all calls (Adafruit_VEML6070 i2c) in
  Z.testbit (_commandRegister m) 1 = true /\
  Forall (fun b => Z.testbit b 1 = true) (written_bytes (trace m)).
Proof.
  apply exec_all_reserved_bit; [reflexivity | constructor].
Qed.

(** C4. For an integration-time code between 0 and 3, [begin] transmits the
    updated cached register, whose bits 2-3 are the code: what the call
    appends to the log is the alert clear followed by one complete write
    transaction to 0x38 carrying that one byte, and no other byte is written.
    On a freshly constructed driver [begin(1)] transmits the byte 0x06 in a
    write transaction to 0x38. *)
Theorem begin_integration_time (m : machine T) (i2c : T) (code : Z)
    (Hcode : 0 <= code <= 3) :
  let m' := snd (begin code m) in
  let b := _commandRegister m' in
  let n := fst (i2c_requestFrom 0x0C 1 (i2c_begin (_i2c m))) in
  let evs := [EBegin; ERequestFrom 0x0C 1 n;
              EBegin; EBeginTransmission 0x38; EWrite b; EEndTransmission] in
  written_bytes (trace m') = written_bytes (trace m) ++ [b] /\
  bf_get IT b = code /\
  Z.testbit b 2 = Z.testbit code 0 /\
  Z.testbit b 3 = Z.testbit code 1 /\
  written_bytes (trace (snd (begin 1 (Adafruit_VEML6070 i2c)))) = [0x06] /\
  trace m' = trace m ++ evs /\
  transactions evs = [TxRead 0x0C 1; TxWrite 0x38 [b]] /\
  transactions (trace (snd (begin 1 (Adafruit_VEML6070 i2c)))) =
  [TxRead 0x0C 1; TxWrite 0x38 [0x06]].
Proof.
  intros m' b n evs. subst evs n b m'. rewrite !begin_eq.
  cbn [snd _commandRegister trace].
  rewrite !written_bytes_app.
  split; [reflexivity |]. split.
  { rewrite bf_get_set by auto with fields. apply Z.mod_small. simpl. lia. }
  split.
  { rewrite bf_set_testbit by (auto with fields; lia). reflexivity. }
  split.
  { rewrite bf_set_testbit by (auto with fields; lia). reflexivity. }
  split; [reflexivity |]. split; [reflexivity |]. split; reflexivity.
Qed.

(** C5. [setInterrupt(state, level)] transmits the updated cached register:
    what the call appends to the log is the alert clear followed by one
    complete write transaction to 0x38 carrying that one byte, and no other
    byte is written.  Bit 5 of the byte is [state], its bit 4 is [level], and
    every other bit is the bit the cached register had before the call.  On a
    freshly constructed driver [setInterrupt(true, true)] transmits 0x32 in a
    write transaction to 0x38. *)
Theorem setInterrupt_bits (m : machine T) (i2c : T) (state level : bool)
    (i : Z) (Hi4 : i <> 4) (Hi5 : i <> 5) :
  let m' := snd (setInterrupt state level m) in
  let b := _commandRegister m' in
  let n := fst (i2c_requestFrom 0x0C 1 (i2c_begin (_i2c m))) in
  let evs := [EBegin; ERequestFrom 0x0C 1 n;
              EBegin; EBeginTransmission 0x38; EWrite b; EEndTransmission] in
  written_bytes (trace m') = written_bytes (trace m) ++ [b] /\
  Z.testbit b 5 = state /\
  Z.testbit b 4 = level /\
  Z.testbit b i = Z.testbit (_commandRegister m) i /\
  written_bytes (trace (snd (setInterrupt true true (Adafruit_VEML6070 i2c))))
  = [0x32] /\
  trace m' = trace m ++ evs /\
  transactions evs = [TxRead 0x0C 1; TxWrite 0x38 [b]] /\
  transactions (trace (snd (setInterrupt true true (Adafruit_VEML6070 i2c)))) =
  [TxRead 0x0C 1; TxWrite 0x38 [0x32]].
Proof.
  intros m' b n evs. subst evs n b m'. rewrite !setInterrupt_eq.
  cbn [snd _commandRegister trace]. rewrite !written_bytes_app.
  split; [reflexivity |]. split.
  { rewrite bf_set_frame by auto with fields.
    rewrite bf_set_testbit by (auto with fields; lia).
    destruct state; reflexivity. }
  split.
  { rewrite bf_set_testbit by (auto with fields; lia).
    destruct level; reflexivity. }
  split.
  { rewrite !bf_set_frame; auto with fields; unfold in_field; simpl.
    - destruct (Z.leb_spec 5 i), (Z.ltb_spec i 6); try reflexivity; lia.
    - destruct (Z.leb_spec 4 i), (Z.ltb_spec i 5); try reflexivity; lia. }
  split; [reflexivity |]. split; [reflexivity |]. split; reflexivity.
Qed.

(** C6. One call of [begin], and one call of [setInterrupt], each append to
    the log events that make exactly two bus transactions: a one-byte read
    from 0x0C, then a write to 0x38 of the updated cached register. *)
Theorem clear_before_write (m : machine T) (itime : Z) (state level : bool) :
  (exists evs,
     trace (snd (begin itime m)) = trace m ++ evs /\
     transactions evs =
     [TxRead 0x0C 1; TxWrite 0x38 [_commandRegister (snd (begin itime m))]]) /\
  (exists evs,
     trace (snd (setInterrupt state level m)) = trace m ++ evs /\
     transactions evs =
     [TxRead 0x0C 1;
      TxWrite 0x38 [_commandRegister (snd (setInterrupt state level m))]]).
Proof.
  rewrite begin_eq, setInterrupt_eq. cbn [snd _commandRegister trace].
  split; eexists; split; reflexivity.
Qed.

(** C7. [sleep(state)] makes bit 0 of the cached register equal to [state]
    and appends to the log one write of that register to 0x38 and nothing
    else, so no request to 0x0C.  On a freshly constructed driver
    [sleep(true)] makes exactly one bus transaction, the write of 0x03 to
    0x38. *)
Theorem sleep_writes_without_clear (m : machine T) (i2c : T) (state : bool) :
  let m' := snd (sleep state m) in
  let b := _commandRegister m' in
  let evs := [EBegin; EBeginTransmission 0x38; EWrite b; EEndTransmission] in
  Z.testbit b 0 = state /\
  trace m' = trace m ++ evs /\
  existsb (is_request_to 0x0C) evs = false /\
  transactions evs = [TxWrite 0x38 [b]] /\
  transactions (trace (snd (sleep true (Adafruit_VEML6070 i2c))))
  = [TxWrite 0x38 [0x03]].
Proof.
  intros m' b evs. subst evs b m'. rewrite !sleep_eq.
  cbn [snd _commandRegister trace]. repeat split.
  rewrite bf_set_testbit by (auto with fields; lia).
  destruct state; reflexivity.
Qed.

(** C9, amended. [clearAck] appends to the log a transport [begin] and one
    one-byte request to 0x0C and nothing else: it does not read the byte
    received, and leaves the transport as the request left it.  It returns
    [true] exactly when the count returned by the request is not zero. *)
Theorem clearAck_request_only (m : machine T) :
  let reply := i2c_requestFrom 0x0C 1 (i2c_begin (_i2c m)) in
  let evs := [EBegin; ERequestFrom 0x0C 1 (fst reply)] in
  trace (snd (clearAck m)) = trace m ++ evs /\
  transactions evs = [TxRead 0x0C 1] /\
  existsb is_read evs = false /\
  _i2c (snd (clearAck m)) = snd reply /\
  fst (clearAck m) = negb (fst reply =? 0).
Proof.
  intros reply evs. subst evs reply. rewrite clearAck_eq.
  repeat split.
Qed.

(** C10. [readUV], whether it returns a reading or 0xFFFF, and [clearAck],
    whatever it returns, leave the cached command register as it was. *)
Theorem reads_keep_register (m : machine T) :
  _commandRegister (snd (readUV m)) = _commandRegister m /\
  _commandRegister (snd (clearAck m)) = _commandRegister m.
Proof.
  split; [apply readUV_register | rewrite clearAck_eq; reflexivity].
Qed.

End Specification.

(** ** The claims on the scripted transport *)

(** Scenario S2 without the [begin]: the device delivers 0x01 then 0x23. *)
Lemma readUV_success_witness :
  (fst (high_request (_i2c (fresh [[0x01]; [0x23]]))) = 1 /\
   fst (low_request (_i2c (fresh [[0x01]; [0x23]]))) = 1) /\
  fst (readUV (fresh [[0x01]; [0x23]])) = 0x0123 /\
  trace (snd (readUV (fresh [[0x01]; [0x23]]))) =
  [EDelay 63; ERequestFrom 0x39 1 1; ERead 0x01;
   ERequestFrom 0x38 1 1; ERead 0x23].
Proof.
  split; [split; reflexivity |].
  pose proof (readUV_success (fresh [[0x01]; [0x23]]) 0x01 0x23
                eq_refl eq_refl eq_refl eq_refl
                ltac:(lia) ltac:(lia))
    as (Hvalue & Htrace & _).
  split; [exact Hvalue | exact Htrace].
Defined.

(** A device that delivers nothing to the first request, and one that
    delivers nothing to the second. *)
Lemma readUV_short_read_witness :
  (fst (high_request (_i2c (fresh [[]]))) < 1 /\
   fst (readUV (fresh [[]])) = 0xFFFF /\
   trace (snd (readUV (fresh [[]]))) = [EDelay 63; ERequestFrom 0x39 1 0]) /\
  (fst (high_request (_i2c (fresh [[0x01]; []]))) = 1 /\
   fst (low_request (_i2c (fresh [[0x01]; []]))) < 1 /\
   fst (readUV (fresh [[0x01]; []])) = 0xFFFF).
Proof.
  assert (Hhigh : fst (high_request (_i2c (fresh [[]]))) < 1) by reflexivity.
  assert (Hlow : fst (low_request (_i2c (fresh [[0x01]; []]))) < 1)
    by reflexivity.
  split.
  - split; [exact Hhigh |].
    destruct (proj1 (readUV_short_read (fresh [[]])) Hhigh)
      as (Hvalue & Htrace & _).
    split; [exact Hvalue | exact Htrace].
  - split; [reflexivity |]. split; [exact Hlow |].
    exact (proj1 (proj2 (readUV_short_read (fresh [[0x01]; []]))
                    eq_refl Hlow)).
Defined.

(** Scenario S1: [begin(1)] on a fresh driver. *)
Lemma begin_integration_time_witness :
  0 <= 1 <= 3 /\
  written_bytes (trace (snd (begin 1 (fresh [[0x00]])))) = [0x06] /\
  bf_get IT (_commandRegister (snd (begin 1 (fresh [[0x00]])))) = 1 /\
  trace (snd (begin 1 (fresh [[0x00]]))) =
  [EBegin; ERequestFrom 0x0C 1 1;
   EBegin; EBeginTransmission 0x38; EWrite 0x06; EEndTransmission] /\
  transactions (trace (snd (begin 1 (fresh [[0x00]])))) =
  [TxRead 0x0C 1; TxWrite 0x38 [0x06]].
Proof.
  assert (Hcode : 0 <= 1 <= 3) by lia.
  split; [exact Hcode |].
  destruct (begin_integration_time (fresh [[0x00]]) (mock [[0x00]]) 1 Hcode)
    as (Hbytes & Hfield & _ & _ & _ & Htrace & _ & Htx).
  split; [exact Hbytes |]. split; [exact Hfield |].
  split; [exact Htrace | exact Htx].
Defined.

(** Scenario S3 after [begin(3)]: the integration-time bit 2 is kept. *)
Lemma setInterrupt_bits_witness :
  (2 <> 4 /\ 2 <> 5) /\
  Z.testbit (_commandRegister
               (snd (setInterrupt true true (snd (begin 3 (fresh [])))))) 2
  = true /\
  written_bytes (trace (snd (setInterrupt true true (snd (begin 3 (fresh []))))))
  = [0x0E; 0x3E] /\
  trace (snd (setInterrupt true true (snd (begin 3 (fresh []))))) =
  trace (snd (begin 3 (fresh []))) ++
  [EBegin; ERequestFrom 0x0C 1 0;
   EBegin; EBeginTransmission 0x38; EWrite 0x3E; EEndTransmission] /\
  transactions (trace (snd (setInterrupt true true (fresh [])))) =
  [TxRead 0x0C 1; TxWrite 0x38 [0x32]].
Proof.
  assert (H24 : 2 <> 4) by discriminate.
  assert (H25 : 2 <> 5) by discriminate.
  split; [split; assumption |].
  destruct (setInterrupt_bits (snd (begin 3 (fresh []))) (mock []) true true 2
              H24 H25) as (Hbytes & _ & _ & Hkept & _ & Htrace & _ & Htx).
  split; [exact Hkept |]. split; [exact Hbytes |].
  split; [exact Htrace | exact Htx].
Defined.

(** C8, on the code.  On a freshly constructed driver whose device delivers
    0x01 then 0x23, the log of [readUV] starts with the wait and goes on with
    the request to 0x39: there is no transport [begin] in it, so the first
    bus transaction of this public call is not preceded by one. *)
Theorem readUV_skips_transport_begin :
  trace (snd (readUV (fresh [[0x01]; [0x23]]))) =
  [EDelay 63; ERequestFrom 0x39 1 1; ERead 0x01;
   ERequestFrom 0x38 1 1; ERead 0x23] /\
  existsb is_begin (trace (snd (readUV (fresh [[0x01]; [0x23]])))) = false.
Proof. split; reflexivity. Qed.

(** C9, as stated, fails.  The device acknowledges with the byte 0x55:
    [clearAck] returns [true], its log holds no [read], and the byte is still
    in the transport, where the next [read] returns it. *)
Lemma clearAck_leaves_byte_unread :
  fst (clearAck (fresh [[0x55]])) = true /\
  trace (snd (clearAck (fresh [[0x55]]))) = [EBegin; ERequestFrom 0x0C 1 1] /\
  existsb is_read (trace (snd (clearAck (fresh [[0x55]])))) = false /\
  fst (i2c_read (_i2c (snd (clearAck (fresh [[0x55]]))))) = 0x55.
Proof. repeat split. Qed.

(** * Further properties of the driver *)

(** ** Assignments to bit-fields *)

Ltac by_bits :=
  apply Z.bits_inj'; intros i Hi;
  repeat rewrite bf_set_testbit by assumption.

(** A second assignment to a field overwrites the first. *)
Lemma bf_set_set (f : bitfield) (reg a b : Z) :
  well_formed f -> bf_set f (bf_set f reg a) b = bf_set f reg b.
Proof.
  intros Hf. by_bits. destruct (in_field f i); reflexivity.
Qed.

(** Assignments to fields that do not overlap commute. *)
Lemma bf_set_comm (f g : bitfield) (reg a b : Z) :
  well_formed f -> well_formed g ->
  pos f + width f <= pos g \/ pos g + width g <= pos f ->
  bf_set f (bf_set g reg b) a = bf_set g (bf_set f reg a) b.
Proof.
  intros Hf Hg Hdis. by_bits. unfold in_field.
  destruct (Z.leb_spec (pos f) i), (Z.ltb_spec i (pos f + width f)),
    (Z.leb_spec (pos g) i), (Z.ltb_spec i (pos g + width g));
    simpl; try reflexivity; lia.
Qed.

(** Reading a field is not affected by an assignment to another one. *)
Lemma bf_get_set_other (f g : bitfield) (reg v : Z) :
  well_formed f -> well_formed g ->
  pos f + width f <= pos g \/ pos g + width g <= pos f ->
  bf_get f (bf_set g reg v) = bf_get f reg.
Proof.
  intros Hf Hg Hdis. apply Z.bits_inj'. intros i Hi.
  rewrite !bf_get_testbit by assumption.
  destruct (Z.ltb_spec i (width f)) as [Hin | Hout];
    [| rewrite !andb_false_r; reflexivity].
  rewrite bf_set_frame; [reflexivity | assumption |].
  destruct Hf as [Hpf Hwf]. unfold in_field.
  destruct (Z.leb_spec (pos g) (i + pos f)),
    (Z.ltb_spec (i + pos f) (pos g + width g)); simpl; try reflexivity; lia.
Qed.

(** A register that fits a byte equals 0 on every bit from 8 on. *)
Lemma byte_high_bits (reg i : Z) :
  0 <= reg < 2 ^ 8 -> 8 <= i -> Z.testbit reg i = false.
Proof.
  intros Hreg Hi. rewrite <- (Z.mod_small reg (2 ^ 8)) by assumption.
  apply Z.mod_pow2_bits_high. lia.
Qed.

(** Two bytes put side by side do not overlap: the [|] of [readUV] is a sum. *)
Lemma assemble_sum (hi lo : Z) :
  0 <= hi < 256 -> 0 <= lo < 256 ->
  Z.lor (Z.shiftl hi 8) lo = 256 * hi + lo.
Proof.
  intros Hhi Hlo.
  assert (Hdis : Z.land (Z.shiftl hi 8) lo = 0).
  { apply Z.bits_inj'. intros i Hi. rewrite Z.land_spec, Z.bits_0.
    destruct (Z.lt_ge_cases i 8) as [Hlow | Hhigh].
    - rewrite Z.shiftl_spec_low by assumption. reflexivity.
    - rewrite (byte_high_bits lo i) by (simpl; lia). apply andb_false_r. }
  rewrite <- Z.lxor_lor by assumption.
  rewrite <- Z.add_nocarry_lxor by assumption.
  rewrite Z.shiftl_mul_pow2 by lia. lia.
Qed.

(** ** What one public call appends to the log *)

Section CallLogs.

Context {T : Type} `{I2C T}.

Lemma exec_call_log (c : api_call) (m : machine T) :
  exists evs, trace (exec c m) = trace m ++ evs /\ call_log evs.
Proof.
  destruct c as [itime | state level | state | |]; unfold exec.
  - rewrite begin_eq. eexists. split; [reflexivity | constructor].
  - rewrite setInterrupt_eq. eexists. split; [reflexivity | constructor].
  - rewrite sleep_eq. eexists. split; [reflexivity | constructor].
  - rewrite readUV_eq.
    destruct (Z.eqb_spec (fst (high_request (_i2c m))) 1) as [-> | Hhigh];
      cbn [negb].
    + destruct (Z.eqb_spec (fst (low_request (_i2c m))) 1) as [-> | Hlow];
        cbn [negb snd trace]; eexists; (split; [reflexivity |]).
      * apply log_read.
      * apply log_read_low_short. assumption.
    + cbn [snd trace]. eexists. split; [reflexivity |].
      apply log_read_high_short. assumption.
  - rewrite clearAck_eq. eexists. split; [reflexivity | constructor].
Qed.

(** The register after one public call. *)
Lemma exec_register (c : api_call) (m : machine T) :
  _commandRegister (exec c m) =
  match c with
  | CallBegin itime => bf_set IT (_commandRegister m) itime
  | CallSetInterrupt state level =>
      bf_set ACK_THD (bf_set ACK (_commandRegister m) (Z.b2z state))
             (Z.b2z level)
  | CallSleep state => bf_set SD (_commandRegister m) (Z.b2z state)
  | CallReadUV => _commandRegister m
  | CallClearAck => _commandRegister m
  end.
Proof.
  destruct c as [itime | state level | state | |]; unfold exec.
  - rewrite begin_eq. reflexivity.
  - rewrite setInterrupt_eq. reflexivity.
  - rewrite sleep_eq. reflexivity.
  - apply readUV_register.
  - rewrite clearAck_eq. reflexivity.
Qed.

(** The bytes written by one public call: the new register for the three
    configuration calls, nothing for the two others. *)
Lemma exec_written (c : api_call) (m : machine T) :
  written_bytes (trace (exec c m)) =
  written_bytes (trace m) ++
  match c with
  | CallReadUV => []
  | CallClearAck => []
  | _ => [_commandRegister (exec c m)]
  end.
Proof.
  destruct c as [itime | state level | state | |]; unfold exec.
  - rewrite begin_eq. cbn [snd trace _commandRegister].
    rewrite !written_bytes_app. reflexivity.
  - rewrite setInterrupt_eq. cbn [snd trace _commandRegister].
    rewrite !written_bytes_app. reflexivity.
  - rewrite sleep_eq. cbn [snd trace _commandRegister].
    rewrite !written_bytes_app. reflexivity.
  - destruct (readUV_appends m) as (evs & -> & _ & Hw & _).
    rewrite written_bytes_app, Hw. reflexivity.
  - rewrite clearAck_eq. cbn [snd trace].
    rewrite written_bytes_app. reflexivity.
Qed.

End CallLogs.

(** ** Scans of a log *)

Lemma reads_guarded_app (ok : bool) (t1 t2 : list event) :
  reads_guarded ok (t1 ++ t2) =
  reads_guarded ok t1 && reads_guarded (guard_after ok t1) t2.
Proof.
  revert ok. induction t1 as [| e t1 IH]; intros ok; [reflexivity |].
  destruct e; simpl; rewrite IH; try reflexivity.
  apply andb_assoc.
Qed.

Lemma transactions_from_app (cur : option (Z * list Z)) (t1 t2 : list event) :
  transactions_from cur (t1 ++ t2) =
  transactions_from cur t1 ++ transactions_from (open_after cur t1) t2.
Proof.
  revert cur. induction t1 as [| e t1 IH]; intros cur; [reflexivity |].
  destruct e; simpl; try apply IH.
  - destruct cur as [[addr bs] |]; apply IH.
  - destruct cur as [[addr bs] |]; simpl; rewrite IH; reflexivity.
  - rewrite IH. reflexivity.
Qed.

Lemma open_after_app (cur : option (Z * list Z)) (t1 t2 : list event) :
  open_after cur (t1 ++ t2) = open_after (open_after cur t1) t2.
Proof.
  revert cur. induction t1 as [| e t1 IH]; intros cur; [reflexivity |].
  destruct e; simpl; try apply IH.
  destruct cur as [[addr bs] |]; apply IH.
Qed.

Lemma open_after_wait (cur : option (Z * list Z)) (reg : Z) :
  open_after cur (wait_events reg) = cur.
Proof.
  unfold wait_events. induction (Z.to_nat (2 ^ bf_get IT reg)); simpl; auto.
Qed.

(** After a wait, whatever came before, the log goes on with a request. *)
Lemma reads_guarded_wait (ok : bool) (reg addr qty r : Z) (t : list event) :
  reads_guarded ok (wait_events reg ++ ERequestFrom addr qty r :: t) =
  reads_guarded (r =? 1) t.
Proof.
  unfold wait_events. revert ok.
  induction (Z.to_nat (2 ^ bf_get IT reg)) as [| n IH]; intros ok; simpl.
  - reflexivity.
  - apply IH.
Qed.

(** In what one call appends, no [read] is out of place. *)
Lemma call_log_guarded (evs : list event) (ok : bool) :
  call_log evs -> reads_guarded ok evs = true.
Proof.
  intros Hlog. destruct Hlog as [n reg | reg | n | reg n Hn | reg x n Hn | reg x y];
    try reflexivity; rewrite reads_guarded_wait; reflexivity.
Qed.

(** What one call appends is made of whole transactions of the device. *)
Lemma call_log_transactions (evs : list event) :
  call_log evs ->
  forallb veml_transaction (transactions_from None evs) = true /\
  open_after None evs = None.
Proof.
  intros Hlog. destruct Hlog as [n reg | reg | n | reg n Hn | reg x n Hn | reg x y];
    try (split; reflexivity);
    rewrite transactions_from_wait, open_after_app, open_after_wait;
    split; reflexivity.
Qed.

Section Sequences.

Context {T : Type} `{I2C T}.

(** A property kept by every public call holds after any sequence of them. *)
Lemma exec_all_invariant (P : machine T -> Prop) :
  (forall c m, P m -> P (exec c m)) ->
  forall calls m, P m -> P (exec_all calls m).
Proof.
  intros Hstep calls. induction calls as [| c calls IH]; intros m Hm.
  - exact Hm.
  - simpl. apply IH. apply Hstep. exact Hm.
Qed.

Lemma exec_frame (c : api_call) (m : machine T) (i : Z) :
  touches c i = false ->
  Z.testbit (_commandRegister (exec c m)) i = Z.testbit (_commandRegister m) i.
Proof.
  intros Hfree. rewrite exec_register.
  destruct c as [itime | state level | state | |]; simpl in Hfree;
    try reflexivity.
  - apply bf_set_frame; auto with fields.
  - apply orb_false_elim in Hfree. destruct Hfree as [Hack Hthd].
    rewrite !bf_set_frame; auto with fields.
  - apply bf_set_frame; auto with fields.
Qed.

Lemma exec_all_frame (calls : list api_call) (m : machine T) (i : Z) :
  forallb (fun c => negb (touches c i)) calls = true ->
  Z.testbit (_commandRegister (exec_all calls m)) i =
  Z.testbit (_commandRegister m) i.
Proof.
  revert m. induction calls as [| c calls IH]; intros m Hfree.
  - reflexivity.
  - simpl in Hfree. apply andb_prop in Hfree. destruct Hfree as [Hc Hrest].
    simpl. rewrite IH by assumption.
    apply exec_frame. apply negb_true_iff. assumption.
Qed.

Lemma exec_byte (c : api_call) (m : machine T) :
  0 <= _commandRegister m < 2 ^ 8 ->
  0 <= _commandRegister (exec c m) < 2 ^ 8.
Proof.
  intros Hreg. rewrite exec_register.
  destruct c as [itime | state level | state | |]; try assumption;
    repeat (apply bf_set_byte; [auto with fields | simpl; lia |]); assumption.
Qed.

(** A call other than [begin] keeps the integration-time field. *)
Lemma exec_keeps_IT (c : api_call) (m : machine T) :
  is_begin_call c = false ->
  bf_get IT (_commandRegister (exec c m)) = bf_get IT (_commandRegister m).
Proof.
  intros Hc. rewrite exec_register.
  destruct c as [itime | state level | state | |]; try discriminate Hc;
    try reflexivity;
    repeat (rewrite bf_get_set_other; [| auto with fields .. | simpl; lia]);
    reflexivity.
Qed.

Lemma exec_all_keeps_IT (calls : list api_call) (m : machine T) :
  forallb (fun c => negb (is_begin_call c)) calls = true ->
  bf_get IT (_commandRegister (exec_all calls m)) =
  bf_get IT (_commandRegister m).
Proof.
  revert m. induction calls as [| c calls IH]; intros m Hcalls.
  - reflexivity.
  - simpl in Hcalls. apply andb_prop in Hcalls. destruct Hcalls as [Hc Hrest].
    simpl. rewrite IH by assumption.
    apply exec_keeps_IT. apply negb_true_iff. assumption.
Qed.

(** The time one public call spends in [delay]. *)
Lemma exec_delay (c : api_call) (m : machine T) :
  delay_total (trace (exec c m)) =
  delay_total (trace m) + wait_of c (_commandRegister m).
Proof.
  destruct c as [itime | state level | state | |]; unfold exec, wait_of.
  - rewrite begin_eq. cbn [snd trace]. rewrite !delay_total_app. simpl. lia.
  - rewrite setInterrupt_eq. cbn [snd trace]. rewrite !delay_total_app.
    simpl. lia.
  - rewrite sleep_eq. cbn [snd trace]. rewrite !delay_total_app. simpl. lia.
  - rewrite readUV_eq.
    destruct (negb (fst (high_request (_i2c m)) =? 1));
      [| destruct (negb (fst (low_request (_i2c m)) =? 1))];
      cbn [snd trace]; rewrite !delay_total_app, wait_events_total; simpl; lia.
  - rewrite clearAck_eq. cbn [snd trace]. rewrite !delay_total_app. simpl. lia.
Qed.

End Sequences.

(** ** Invariants, frames and compositions *)

Section Further.

Context {T : Type} `{I2C T}.

(** X1. After any sequence of public calls on a freshly constructed driver,
    whatever their arguments, the cached register fits a byte and its
    reserved bits 6 and 7 are 0. *)
Theorem register_stays_in_layout (i2c : T) (calls : list api_call) :
  let reg := _commandRegister (exec_all calls (Adafruit_VEML6070 i2c)) in
  0 <= reg < 256 /\ Z.testbit reg 6 = false /\ Z.testbit reg 7 = false.
Proof.
  intros reg. subst reg. repeat split.
  - apply (exec_all_invariant (fun m => 0 <= _commandRegister m < 2 ^ 8));
      [apply exec_byte | simpl; lia].
  - apply (exec_all_invariant (fun m => 0 <= _commandRegister m < 2 ^ 8));
      [apply exec_byte | simpl; lia].
  - rewrite exec_all_frame; [reflexivity |].
    apply forallb_forall. intros c _. destruct c; reflexivity.
  - rewrite exec_all_frame; [reflexivity |].
    apply forallb_forall. intros c _. destruct c; reflexivity.
Qed.

(** X2. A sequence of public calls changes no bit of the cached register
    other than those of the fields its calls assign to: IT for [begin], ACK
    and ACK_THD for [setInterrupt], SD for [sleep], none for [readUV] and
    [clearAck]. *)
Theorem calls_keep_other_bits (calls : list api_call) (m : machine T) (i : Z)
    (Hfree : forallb (fun c => negb (touches c i)) calls = true) :
  Z.testbit (_commandRegister (exec_all calls m)) i =
  Z.testbit (_commandRegister m) i.
Proof. apply exec_all_frame. assumption. Qed.

(** X3. After any sequence of public calls on a freshly constructed driver,
    the cached register is the last byte written to the device, or the
    default 0x02 when nothing has been written yet. *)
Theorem register_is_last_written (i2c : T) (calls : list api_call) :
  let m := exec_all calls (Adafruit_VEML6070 i2c) in
  last (written_bytes (trace m)) 0x02 = _commandRegister m.
Proof.
  apply (exec_all_invariant
           (fun m => last (written_bytes (trace m)) 0x02 = _commandRegister m));
    [| reflexivity].
  intros c m Hm. rewrite exec_written.
  destruct c as [itime | state level | state | |];
    try apply last_last;
    rewrite app_nil_r, exec_register; exact Hm.
Qed.

(** X4. Two calls of [sleep] in a row write two bytes, and leave the register
    that the second call alone would have left: the second argument wins, and
    a repeated [sleep] with the same argument writes the same byte twice. *)
Theorem sleep_twice (m : machine T) (a b : bool) :
  let m1 := snd (sleep a m) in
  let m2 := snd (sleep b m1) in
  _commandRegister m2 = _commandRegister (snd (sleep b m)) /\
  written_bytes (trace m2) =
  written_bytes (trace m) ++ [_commandRegister m1; _commandRegister m2] /\
  written_bytes (trace (snd (sleep a m1))) =
  written_bytes (trace m) ++ [_commandRegister m1; _commandRegister m1].
Proof.
  intros m1 m2. subst m2 m1. rewrite !sleep_eq.
  cbn [snd _commandRegister trace]. rewrite !written_bytes_app.
  rewrite !bf_set_set by auto with fields.
  rewrite <- !app_assoc. repeat split.
Qed.

(** X5. The three configuration calls assign to separate fields, so the
    register two of them leave does not depend on their order. *)
Theorem configuration_calls_commute (m : machine T) (itime : Z)
    (state level sd : bool) :
  _commandRegister (snd (setInterrupt state level (snd (begin itime m)))) =
  _commandRegister (snd (begin itime (snd (setInterrupt state level m)))) /\
  _commandRegister (snd (sleep sd (snd (begin itime m)))) =
  _commandRegister (snd (begin itime (snd (sleep sd m)))) /\
  _commandRegister (snd (sleep sd (snd (setInterrupt state level m)))) =
  _commandRegister (snd (setInterrupt state level (snd (sleep sd m)))).
Proof.
  rewrite !begin_eq, !setInterrupt_eq, !sleep_eq.
  cbn [snd _commandRegister].
  assert (Hit_ack : bf_set IT (bf_set ACK (_commandRegister m) (Z.b2z state)) itime
                    = bf_set ACK (bf_set IT (_commandRegister m) itime) (Z.b2z state))
    by (apply bf_set_comm; auto with fields; simpl; lia).
  repeat split.
  - rewrite (bf_set_comm IT ACK_THD) by (auto with fields; simpl; lia).
    rewrite Hit_ack. reflexivity.
  - apply bf_set_comm; auto with fields; simpl; lia.
  - rewrite (bf_set_comm SD ACK_THD) by (auto with fields; simpl; lia).
    rewrite (bf_set_comm SD ACK) by (auto with fields; simpl; lia).
    reflexivity.
Qed.

(** X6. [waitForNext] only waits: it keeps the register and the transport,
    and appends to the log nothing but [delay(63)] calls, between 63 ms and
    504 ms in total, whatever the cached register holds. *)
Theorem waitForNext_bounded (m : machine T) :
  let m' := snd (waitForNext m) in
  _commandRegister m' = _commandRegister m /\
  _i2c m' = _i2c m /\
  exists evs,
    trace m' = trace m ++ evs /\
    Forall (fun e => e = EDelay 63) evs /\
    63 <= delay_total evs <= 504.
Proof.
  intros m'. subst m'. rewrite waitForNext_eq. cbn [snd _commandRegister _i2c trace].
  split; [reflexivity |]. split; [reflexivity |].
  exists (wait_events (_commandRegister m)). split; [reflexivity |]. split.
  - apply Forall_forall. intros e He. unfold wait_events in He.
    apply repeat_spec in He. exact He.
  - rewrite wait_events_total.
    pose proof (bf_get_range IT (_commandRegister m) IT_wf) as Hr. simpl in Hr.
    assert (Hcases : bf_get IT (_commandRegister m) = 0 \/
                     bf_get IT (_commandRegister m) = 1 \/
                     bf_get IT (_commandRegister m) = 2 \/
                     bf_get IT (_commandRegister m) = 3) by lia.
    destruct Hcases as [-> | [-> | [-> | ->]]]; simpl; lia.
Qed.

(** X7. When both requests of [readUV] deliver one byte, the value returned
    is [256 * hi + lo], from which the two bytes are recovered by a shift and
    a mask; it is 0xFFFF, the value of a failed call, exactly when both bytes
    are 0xFF. *)
Theorem readUV_bytes_recovered (m : machine T) (hi lo : Z)
    (Hhq : fst (high_request (_i2c m)) = 1)
    (Hhr : fst (high_read (_i2c m)) = hi)
    (Hlq : fst (low_request (_i2c m)) = 1)
    (Hlr : fst (low_read (_i2c m)) = lo)
    (Hhi : 0 <= hi < 256) (Hlo : 0 <= lo < 256) :
  let v := fst (readUV m) in
  v = 256 * hi + lo /\
  Z.shiftr v 8 = hi /\
  Z.land v 0xFF = lo /\
  (v =? 0xFFFF) = (hi =? 0xFF) && (lo =? 0xFF).
Proof.
  intros v.
  assert (Hv : v = 256 * hi + lo).
  { subst v. rewrite readUV_eq, Hhq, Hlq, Hhr, Hlr.
    cbn [negb Z.eqb Pos.eqb fst].
    rewrite assemble_uint16 by assumption. apply assemble_sum; assumption. }
  split; [exact Hv |]. rewrite Hv. repeat split.
  - rewrite Z.shiftr_div_pow2 by lia. change (2 ^ 8) with 256.
    symmetry. apply (Z.div_unique_pos _ _ hi lo); lia.
  - change 0xFF with (Z.ones 8). rewrite Z.land_ones by lia.
    change (2 ^ 8) with 256.
    symmetry. apply (Z.mod_unique_pos _ _ hi lo); lia.
  - destruct (Z.eqb_spec (256 * hi + lo) 65535), (Z.eqb_spec hi 255),
      (Z.eqb_spec lo 255); simpl; try reflexivity; lia.
Qed.

(** X8. In the log of any sequence of public calls on a freshly constructed
    driver, every [read] of the transport comes right after a request that
    returned exactly one byte: the driver never reads after a request that
    failed. *)
Theorem reads_follow_requests (i2c : T) (calls : list api_call) :
  reads_guarded false (trace (exec_all calls (Adafruit_VEML6070 i2c))) = true.
Proof.
  apply (exec_all_invariant
           (fun m => reads_guarded false (trace m) = true));
    [| reflexivity].
  intros c m Hm. destruct (exec_call_log c m) as (evs & -> & Hlog).
  rewrite reads_guarded_app, Hm, (call_log_guarded _ _ Hlog). reflexivity.
Qed.

(** X9. The log of any sequence of public calls on a freshly constructed
    driver is made of whole transactions of the device and nothing else:
    one-byte reads from 0x0C, 0x39 or 0x38 and one-byte writes to 0x38, with
    no write transaction left open at the end. *)
Theorem only_device_transactions (i2c : T) (calls : list api_call) :
  let t := trace (exec_all calls (Adafruit_VEML6070 i2c)) in
  forallb veml_transaction (transactions t) = true /\
  open_after None t = None.
Proof.
  apply (exec_all_invariant
           (fun m => forallb veml_transaction (transactions (trace m)) = true /\
                     open_after None (trace m) = None));
    [| split; reflexivity].
  intros c m [Htx Hclosed]. destruct (exec_call_log c m) as (evs & -> & Hlog).
  destruct (call_log_transactions evs Hlog) as [Hevs Hend].
  unfold transactions in *.
  rewrite transactions_from_app, open_after_app, Hclosed, forallb_app, Htx, Hevs.
  split; [reflexivity | exact Hend].
Qed.

(** X10. Only [readUV] waits: [begin], [setInterrupt], [sleep] and [clearAck]
    add no delay, and [readUV] adds [63 * 2 ^ IT] ms for the IT field of the
    register it finds, also when a request fails and 0xFFFF is returned. *)
Theorem delay_of_a_call (c : api_call) (m : machine T) :
  delay_total (trace (exec c m)) =
  delay_total (trace m) +
  match c with
  | CallReadUV => 63 * 2 ^ bf_get IT (_commandRegister m)
  | _ => 0
  end.
Proof. apply exec_delay. Qed.

(** X11. The integration time given to [begin] sets the wait of the later
    measurements: after [begin(code)] with a code between 0 and 3, and any
    calls other than [begin] in between, a [readUV] waits [63 * 2 ^ code]
    ms. *)
Theorem readUV_waits_for_begin_code (m : machine T) (code : Z)
    (calls : list api_call)
    (Hcode : 0 <= code <= 3)
    (Hcalls : forallb (fun c => negb (is_begin_call c)) calls = true) :
  let m1 := exec_all calls (snd (begin code m)) in
  delay_total (trace (snd (readUV m1))) =
  delay_total (trace m1) + 63 * 2 ^ code.
Proof.
  intros m1. change (snd (readUV m1)) with (exec CallReadUV m1).
  rewrite exec_delay. unfold wait_of. subst m1.
  rewrite exec_all_keeps_IT by assumption.
  rewrite begin_eq. cbn [snd _commandRegister].
  rewrite bf_get_set by auto with fields.
  rewrite Z.mod_small by (simpl; lia). reflexivity.
Qed.

End Further.

(** ** The further properties on the scripted transport *)

(** The integration-time bit 3 set by [begin(3)] outlives a [sleep], a
    [setInterrupt], a [readUV] and a [clearAck]. *)
Lemma calls_keep_other_bits_witness :
  forallb (fun c => negb (touches c 3))
          [CallSleep true; CallSetInterrupt true false; CallReadUV;
           CallClearAck] = true /\
  Z.testbit
    (_commandRegister
       (exec_all [CallSleep true; CallSetInterrupt true false; CallReadUV;
                  CallClearAck]
                 (snd (begin 3 (fresh [[0x00]; [0x00]; [0x12]; [0x34]])))))
    3 = true.
Proof.
  split; [reflexivity |].
  exact (calls_keep_other_bits
           [CallSleep true; CallSetInterrupt true false; CallReadUV;
            CallClearAck]
           (snd (begin 3 (fresh [[0x00]; [0x00]; [0x12]; [0x34]]))) 3 eq_refl).
Defined.

(** A saturated reading: both bytes 0xFF give the value of a failed call. *)
Lemma readUV_bytes_recovered_witness :
  (fst (high_request (_i2c (fresh [[0xFF]; [0xFF]]))) = 1 /\
   fst (low_request (_i2c (fresh [[0xFF]; [0xFF]]))) = 1) /\
  fst (readUV (fresh [[0xFF]; [0xFF]])) = 256 * 0xFF + 0xFF /\
  (fst (readUV (fresh [[0xFF]; [0xFF]])) =? 0xFFFF) = true.
Proof.
  assert (Hhq : fst (high_request (_i2c (fresh [[0xFF]; [0xFF]]))) = 1)
    by reflexivity.
  assert (Hhr : fst (high_read (_i2c (fresh [[0xFF]; [0xFF]]))) = 0xFF)
    by reflexivity.
  assert (Hlq : fst (low_request (_i2c (fresh [[0xFF]; [0xFF]]))) = 1)
    by reflexivity.
  assert (Hlr : fst (low_read (_i2c (fresh [[0xFF]; [0xFF]]))) = 0xFF)
    by reflexivity.
  split; [split; assumption |].
  destruct (readUV_bytes_recovered (fresh [[0xFF]; [0xFF]]) 0xFF 0xFF
              Hhq Hhr Hlq Hlr ltac:(lia) ltac:(lia))
    as (Hsum & _ & _ & Hsentinel).
  split; [exact Hsum | exact Hsentinel].
Defined.

(** [begin(2)], then a [sleep] and a [setInterrupt]: the measurement waits
    252 ms. *)
Lemma readUV_waits_for_begin_code_witness :
  (0 <= 2 <= 3 /\
   forallb (fun c => negb (is_begin_call c))
           [CallSleep false; CallSetInterrupt true true] = true) /\
  delay_total
    (trace (snd (readUV
                   (exec_all [CallSleep false; CallSetInterrupt true true]
                             (snd (begin 2 (fresh [[0x00]; [0x00]; [0x01];
                                                   [0x23]]))))))) =
  delay_total
    (trace (exec_all [CallSleep false; CallSetInterrupt true true]
                     (snd (begin 2 (fresh [[0x00]; [0x00]; [0x01]; [0x23]])))))
  + 63 * 2 ^ 2.
Proof.
  assert (Hcode : 0 <= 2 <= 3) by lia.
  split; [split; [exact Hcode | reflexivity] |].
  exact (readUV_waits_for_begin_code
           (fresh [[0x00]; [0x00]; [0x01]; [0x23]]) 2
           [CallSleep false; CallSetInterrupt true true] Hcode eq_refl).
Defined.
